(** * rfidreader: the SL030 driver and the MQTT bridge loop

    A shallow embedding of [rfidreader/hardware.py] (class [RFIDReader]) and
    of [rfidreader/commands/bridge.py] (function [loop]), and the properties
    of the wire codec, the transaction layer, card selection, session
    construction and the presence loop.

    The program is Python 2: a [str] is a sequence of bytes, [ord] maps a
    one-byte string to an integer in 0..255 and [chr] is its partial
    inverse.  Integers are unbounded, so they are [Z]; a byte string is a
    [list byte].  Exceptions are values of [exn]; the objects the code mutates
    (the I2C device file, the GPIO value files, the MQTT client) are explicit
    state threaded through a state-and-exception monad. *)

From Stdlib Require Import ZArith Lia Strings.Byte.
From stdpp Require Import base option list strings gmap.

Local Open Scope Z_scope.

(** ** Python values and exceptions *)

(** The few Python values that travel as exception arguments or as the
    result of [fcntl.ioctl]. *)
Inductive PyVal : Type :=
  | PyNone
  | PyInt (z : Z)
  | PyStr (s : string).

(** [v is not None]. *)
Definition is_not_None (v : PyVal) : bool :=
  match v with
  | PyNone => false
  | _ => true
  end.

(** The exceptions the two modules can raise, with their arguments. *)
Inductive exn : Type :=
  | IndexError
  | ValueError (args : list PyVal)
  | RuntimeError (args : list PyVal)
  | AttributeError (name : string)
  | TypeError
  | IOError (errno : Z)
  | StopIteration.

Inductive res (A : Type) : Type :=
  | Ok (a : A)
  | Raise (e : exn).
Arguments Ok {A} a.
Arguments Raise {A} e.

(** A computation over a mutable object of type [S]: it returns normally or
    raises, and in both cases leaves the object in a new state. *)
Definition M (S A : Type) : Type := S -> res A * S.

Definition ret {S A} (a : A) : M S A := fun s => (Ok a, s).
Definition raise {S A} (e : exn) : M S A := fun s => (Raise e, s).
Definition bind {S A B} (m : M S A) (k : A -> M S B) : M S B :=
  fun s =>
    match m s with
    | (Ok a, s') => k a s'
    | (Raise e, s') => (Raise e, s')
    end.
(** A pure partial step ([s[i]], [chr(n)]) that raises [e] when undefined. *)
Definition orelse {S A} (o : option A) (e : exn) : M S A :=
  match o with
  | Some a => ret a
  | None => raise e
  end.

Declare Scope py_scope.
Delimit Scope py_scope with py.
Notation "'let!' x ':=' m 'in' k" := (bind m (fun x => k))
  (at level 10, x pattern, m at level 100, k at level 200) : py_scope.

(** ** Byte strings *)

#[global] Instance byte_eq_decision : EqDecision byte := Byte.byte_eq_dec.

(** [ord(c)] for a one-byte string. *)
Definition ord (c : byte) : Z := Z.of_N (Byte.to_N c).

(** [chr(n)]: defined on [range(256)] only (ValueError otherwise). *)
Definition chr (n : Z) : option byte :=
  if decide (0 <= n < 256) then Byte.of_N (Z.to_N n) else None.

Definition chr_error : exn := ValueError [PyStr "chr() arg not in range(256)"].

Section Sequences.
Context {A : Type}.

(** [len(s)]. *)
Definition len (s : list A) : Z := Z.of_nat (length s).

(** [s[i]] with Python's negative indices; [None] stands for IndexError. *)
Definition py_index (s : list A) (i : Z) : option A :=
  let i' := if decide (i < 0) then i + len s else i in
  if decide (0 <= i' < len s) then s !! Z.to_nat i' else None.

(** How a slice bound is clipped to [0..len(s)]. *)
Definition clip (s : list A) (i : Z) : Z :=
  if decide (i < 0) then Z.max 0 (i + len s) else Z.min i (len s).

(** [s[lo:hi]]: never raises, out-of-range bounds are clipped. *)
Definition py_slice (s : list A) (lo hi : Z) : list A :=
  take (Z.to_nat (clip s hi - clip s lo)) (drop (Z.to_nat (clip s lo)) s).
End Sequences.

(** ** The I2C device file *)

(** [io.FileIO("/dev/i2c-N", "r+")] as the driver sees it: the byte strings
    written so far (oldest first) and what the device will deliver to the
    coming [read] calls (one entry per call; every call is a bus transfer of
    its own, so bytes beyond the requested count are dropped, and a device
    with nothing to deliver gives the empty string). *)
Record FileIO : Type := {
  written : list (list byte);
  pending : list (list byte)
}.

Definition FileIO_read (n : nat) : M FileIO (list byte) :=
  fun f =>
    match pending f with
    | [] => (Ok [], f)
    | r :: rs => (Ok (take n r), {| written := written f; pending := rs |})
    end.

Definition FileIO_write (s : list byte) : M FileIO unit :=
  fun f => (Ok tt, {| written := written f ++ [s]; pending := pending f |}).

(** A GPIO [value] file: what was written to it and how often it was read. *)
Record GpioFile : Type := {
  gpio_written : list string;
  gpio_reads : nat
}.

Definition GpioFile_write (v : string) (g : GpioFile) : GpioFile :=
  {| gpio_written := gpio_written g ++ [v]; gpio_reads := gpio_reads g |}.
Definition GpioFile_read (g : GpioFile) : GpioFile :=
  {| gpio_written := gpio_written g; gpio_reads := S (gpio_reads g) |}.

(** ** hardware.py *)

(** I2C_SLAVE constant from i2c-tools-3.1.0/include/linux/i2c-dev.h *)
Definition I2C_SLAVE : Z := 0x0703.

(** The result of a successful [select]: the pair the method returns,
    [(ord(data[length-1]), data[:length-1])], card type first, uid second. *)
Definition Card : Type := Z * list byte.

Module RFIDReader.

(** An entry of the class namespace. *)
Inductive attr : Type :=
  | Const (z : Z)
  | Method.

(** The namespace of the class body: the two constants it assigns and the
    methods it defines.  Nothing else is ever assigned to the class. *)
Definition namespace : gmap string attr :=
  list_to_map
    [ ("COMMAND_SLEEP"%string, Const 0x01);
      ("STATUS_SUCCESS"%string, Const 0x00);
      ("__init__"%string, Method);
      ("read"%string, Method);
      ("write"%string, Method);
      ("transaction"%string, Method);
      ("sleep"%string, Method);
      ("wake"%string, Method);
      ("select"%string, Method);
      ("poll"%string, Method) ].

(** [RFIDReader.NAME] in a place that takes an integer: a name missing from
    the namespace raises AttributeError.  (The names the code looks up this
    way are constants or missing, never methods.) *)
Definition class_const {S} (name : string) : M S Z :=
  match namespace !! name with
  | Some (Const z) => ret z
  | Some Method => raise TypeError
  | None => raise (AttributeError name)
  end.

(** The instance: [self.bus], [self.pin_detect], [self.pin_wake]. *)
Record t : Type := {
  bus : FileIO;
  pin_detect : option GpioFile;
  pin_wake : option GpioFile
}.

(** Run a computation on [self.bus]. *)
Definition on_bus {A} (m : M FileIO A) : M t A :=
  fun self =>
    let (r, b) := m (bus self) in
    (r, {| bus := b; pin_detect := pin_detect self; pin_wake := pin_wake self |}).

Local Open Scope py_scope.

(** [clean = ''.join(map(chr, map(lambda c: c & 127, map(ord, response))))] *)
Definition clean_response (response : list byte) : option (list byte) :=
  mapM chr (map (fun c => Z.land c 127) (map ord response)).

(** The body of [read] after the bus transfer: field extraction. *)
Definition decode {S} (response : list byte) : M S (Z * Z * list byte) :=
  let! r0 := orelse (py_index response 0) IndexError in
  let length := ord r0 in
  let! clean := orelse (clean_response response) chr_error in
  let! c1 := orelse (py_index clean 1) IndexError in
  let command := ord c1 in
  let! c2 := orelse (py_index clean 2) IndexError in
  let status := ord c2 in
  let data := py_slice clean 3 (length + 1) in
  ret (command, status, data).

(** [read(self)] *)
Definition read : M t (Z * Z * list byte) :=
  let! response := on_bus (FileIO_read 256) in
  decode response.

Definition too_long : exn :=
  ValueError [PyStr "Data must be shorter than 254 bytes"].
Definition invalid_command : exn := ValueError [PyStr "Invalid command"].

(** [write(self, command, data='')]: the encoder. *)
Definition write (command : Z) (data : list byte) : M t unit :=
  let length := 1 + len data in
  if decide (length > 255) then raise too_long
  else if negb (bool_decide (0 <= command <= 255)) then raise invalid_command
  else
    let! l := orelse (chr length) chr_error in
    let! c := orelse (chr command) chr_error in
    on_bus (FileIO_write ([l] ++ [c] ++ data)).

Definition mismatch : exn :=
  RuntimeError [PyStr "Response to invalid command in transaction"].

(** [transaction(self, command, data='')]; the 0.1 s [time.sleep] between
    the write and the read changes no state. *)
Definition transaction (command : Z) (data : list byte)
  : M t (Z * list byte) :=
  let! _ := write command data in
  let! (response_command, status, data) := read in
  if decide (response_command <> command) then raise mismatch
  else ret (status, data).

(** [sleep(self)] *)
Definition sleep : M t unit :=
  let! c := class_const "COMMAND_SLEEP" in
  write c [].

(** [self.pin_wake.write(v)]; on [None] the attribute lookup fails. *)
Definition pin_wake_write (v : string) : M t unit :=
  fun self =>
    match pin_wake self with
    | None => (Raise (AttributeError "write"), self)
    | Some g =>
        (Ok tt, {| bus := bus self; pin_detect := pin_detect self;
                   pin_wake := Some (GpioFile_write v g) |})
    end.

(** [wake(self)] *)
Definition wake : M t unit :=
  let! _ := pin_wake_write "1" in
  pin_wake_write "0".

(** The body of [select] once its command code is known. *)
Definition select_with (command : Z) : M t (option Card) :=
  let! (status, data) := transaction command [] in
  let! success := class_const "STATUS_SUCCESS" in
  if decide (status <> success) then ret None
  else
    let length := len data in
    let! last := orelse (py_index data (length - 1)) IndexError in
    ret (Some (ord last, py_slice data 0 (length - 1))).

(** [select(self)]: the argument [RFIDReader.COMMAND_SELECT] is evaluated
    before [transaction] is called. *)
Definition select : M t (option Card) :=
  let! command := class_const "COMMAND_SELECT" in
  select_with command.

(** [self.pin_detect.read()]; on [None] the attribute lookup fails. *)
Definition pin_detect_read : M t unit :=
  fun self =>
    match pin_detect self with
    | None => (Raise (AttributeError "read"), self)
    | Some g =>
        (Ok tt, {| bus := bus self; pin_detect := Some (GpioFile_read g);
                   pin_wake := pin_wake self |})
    end.

(** [poll(self)]: the read of the detect pin, then [select]; the epoll wait
    between the two touches neither the pins nor the bus and is taken to
    return. *)
Definition poll : M t (option Card) :=
  let! _ := pin_detect_read in
  select.

(** *** Construction *)

(** What the operating system answers while [__init__] runs:
    [io.FileIO("/dev/i2c-{}".format(bus), "r+")], the call
    [fcntl.ioctl(self.bus, op, arg)], and whether writing a pin number to
    [/sys/class/gpio/export] goes through. *)
Record Env : Type := {
  open_device : Z -> res FileIO;
  ioctl : Z -> Z -> res PyVal;
  export_ok : Z -> bool
}.

(** A write to a GPIO control file. *)
Inductive sysfs_write : Type :=
  | Export (pin : Z)
  | Direction (pin : Z) (dir : string)
  | Edge (pin : Z) (mode : string).

(** What construction leaves behind outside the object. *)
Record World : Type := {
  sysfs : list sysfs_write;
  stdout : list string
}.

Definition lift {S A} (r : res A) : M S A := fun s => (r, s).

Definition sysfs_do (w : sysfs_write) : M World unit :=
  fun world => (Ok tt, {| sysfs := sysfs world ++ [w]; stdout := stdout world |}).

Definition print (line : string) : M World unit :=
  fun world => (Ok tt, {| sysfs := sysfs world; stdout := stdout world ++ [line] |}).

(** The [try: ... except: print(...)] around the export. *)
Definition try_export (env : Env) (pin : Z) (complaint : string) : M World unit :=
  if export_ok env pin then sysfs_do (Export pin) else print complaint.

Definition fresh_pin : GpioFile := {| gpio_written := []; gpio_reads := 0 |}.

Definition bind_error (error : PyVal) : exn :=
  RuntimeError [PyStr "Couldn't set the slave address:"; error].

(** [__init__(self, bus, address, detect=None, wake=None)] *)
Definition init (env : Env) (bus_number address : Z) (detect wake : option Z)
  : M World t :=
  let! b := lift (open_device env bus_number) in
  let! error := lift (ioctl env I2C_SLAVE address) in
  if is_not_None error then raise (bind_error error)
  else
    let! pd :=
      match detect with
      | None => ret None
      | Some pin =>
          let! _ := try_export env pin "Couldn't export detection pin" in
          let! _ := sysfs_do (Direction pin "in") in
          let! _ := sysfs_do (Edge pin "falling") in
          ret (Some fresh_pin)
      end in
    let! pw :=
      match wake with
      | None => ret None
      | Some pin =>
          let! _ := try_export env pin "Couldn't export wake pin" in
          let! _ := sysfs_do (Direction pin "out") in
          ret (Some (GpioFile_write "1" fresh_pin))
      end in
    ret {| bus := b; pin_detect := pd; pin_wake := pw |}.

(** [fcntl.ioctl] of the Python standard library, called with an integer
    argument, for a C [ioctl] that returned [c_ret] and left [errno]: a
    negative return raises IOError, any other is handed back as an
    integer.  [I2C_SLAVE] returns 0 when the address was set. *)
Definition fcntl_ioctl (c_ret errno : Z) : res PyVal :=
  if decide (c_ret < 0) then Raise (IOError errno) else Ok (PyInt c_ret).

End RFIDReader.

(** ** commands/bridge.py *)

Module bridge.

Local Open Scope py_scope.

(** Message broker topics. *)
Definition PRESENTED_TOPIC : string := "rfid/presented".
Definition REMOVED_TOPIC : string := "rfid/removed".

(** A call [client.publish(topic)] or [client.publish(topic, payload)]. *)
Inductive message : Type :=
  | publish (topic : string) (payload : option (list byte)).

(** What [loop] needs of its [rfid] argument: a [select()] method. *)
Class Rfid (R : Type) : Type := rfid_select : M R (option Card).

#[global] Instance reader_rfid : Rfid RFIDReader.t := RFIDReader.select.

(** A stand-in reader that plays back a list of [select()] results and
    raises once the list is used up. *)
#[global] Instance scripted_rfid : Rfid (list (option Card)) :=
  fun script =>
    match script with
    | [] => (Raise StopIteration, [])
    | r :: rest => (Ok r, rest)
    end.

(** The variables of a running [loop]: its two arguments (the client as
    the list of messages published so far) and the local [present]. *)
Record frame (R : Type) : Type := {
  rfid : R;
  client : list message;
  present : option Card
}.
Arguments rfid {R} _.
Arguments client {R} _.
Arguments present {R} _.

(** The [if]/[else] of the loop body: the new value of [present] and the
    messages published, for the old [present] and the [response]. *)
Definition transition (present response : option Card)
  : option Card * list message :=
  match response with
  | Some r =>
      if decide (present <> response)
      then (response, [publish PRESENTED_TOPIC (Some (snd r))])
      else (present, [])
  | None =>
      if decide (present <> None)
      then (None, [publish REMOVED_TOPIC None])
      else (present, [])
  end.

(** One pass through the body of [while True]; [time.sleep(delay)] changes
    no state. *)
Definition iteration {R} `{Rfid R} : M (frame R) unit :=
  fun f =>
    match rfid_select (rfid f) with
    | (Raise e, r') =>
        (Raise e, {| rfid := r'; client := client f; present := present f |})
    | (Ok response, r') =>
        let (p, out) := transition (present f) response in
        (Ok tt, {| rfid := r'; client := client f ++ out; present := p |})
    end.

(** [loop(rfid, client, delay=0.1)] cut off after [n] iterations.  The
    function cannot return: it is left by an exception ([Some e]) or is
    still running ([None]). *)
Fixpoint run {R} `{Rfid R} (n : nat) (f : frame R) : option exn * frame R :=
  match n with
  | O => (None, f)
  | S n' =>
      match iteration f with
      | (Raise e, f') => (Some e, f')
      | (Ok _, f') => run n' f'
      end
  end.

Definition loop {R} `{Rfid R} (n : nat) (rfid : R) (client : list message)
  : option exn * frame R :=
  run n {| rfid := rfid; client := client; present := None |}.

End bridge.

(** ** Vocabulary of the properties *)

(** [c & 127] as a byte: what the cleaning step of [read] turns [c] into. *)
Definition clean_byte (c : byte) : byte :=
  default x00 (chr (Z.land (ord c) 127)).

(** [c | 128] as a byte: how a test harness sets the most significant bit. *)
Definition set_msb (c : byte) : byte :=
  default x00 (chr (Z.lor (ord c) 128)).

(** A reader without GPIO pins on a bus that has written nothing yet and
    will deliver [responses]. *)
Definition mock (responses : list (list byte)) : RFIDReader.t :=
  {| RFIDReader.bus := {| written := []; pending := responses |};
     RFIDReader.pin_detect := None;
     RFIDReader.pin_wake := None |}.

(** The string the coming [self.bus.read(256)] returns. *)
Definition next_response (self : RFIDReader.t) : list byte :=
  match pending (RFIDReader.bus self) with
  | [] => []
  | r :: _ => take 256 r
  end.

(** [self] after that call. *)
Definition after_read (self : RFIDReader.t) : RFIDReader.t :=
  {| RFIDReader.bus :=
       {| written := written (RFIDReader.bus self);
          pending := tail (pending (RFIDReader.bus self)) |};
     RFIDReader.pin_detect := RFIDReader.pin_detect self;
     RFIDReader.pin_wake := RFIDReader.pin_wake self |}.

(** [self] after [self.bus.write(frame)]. *)
Definition after_write (frame : list byte) (self : RFIDReader.t) : RFIDReader.t :=
  {| RFIDReader.bus :=
       {| written := written (RFIDReader.bus self) ++ [frame];
          pending := pending (RFIDReader.bus self) |};
     RFIDReader.pin_detect := RFIDReader.pin_detect self;
     RFIDReader.pin_wake := RFIDReader.pin_wake self |}.

(** The decoder as the specification words it: every field, the length
    included, is taken from the cleaned bytes. *)
Definition decode_as_specified (raw : list byte) : res (Z * Z * list byte) :=
  let cleaned := map clean_byte raw in
  match cleaned with
  | c0 :: c1 :: c2 :: _ =>
      Ok (ord c1, ord c2, py_slice cleaned 3 (ord c0 + 1))
  | _ => Raise IndexError
  end.

(** The round trip of the test harness: [write(command, data)] on a fresh
    bus, then [read()] from a bus that delivers the written bytes with the
    most significant bit of every byte set. *)
Definition roundtrip (command : Z) (data : list byte) : res (Z * Z * list byte) :=
  match RFIDReader.write command data (mock []) with
  | (Raise e, _) => Raise e
  | (Ok _, sent) =>
      fst (RFIDReader.read
             (mock (map (map set_msb) (written (RFIDReader.bus sent)))))
  end.

(** The two events as [loop] publishes them. *)
Definition card_presented (info : Card) : bridge.message :=
  bridge.publish bridge.PRESENTED_TOPIC (Some (snd info)).
Definition card_removed : bridge.message :=
  bridge.publish bridge.REMOVED_TOPIC None.

(** The message a [select()] result stands for when it causes one. *)
Definition event_of (result : option Card) : bridge.message :=
  match result with
  | Some info => card_presented info
  | None => card_removed
  end.

(** The messages the transition logic publishes for a sequence of
    [select()] results, each paired with the result that caused it. *)
Fixpoint trace (last : option Card) (results : list (option Card))
  : list (option Card * bridge.message) :=
  match results with
  | [] => []
  | r :: rest =>
      map (pair r) (snd (bridge.transition last r))
        ++ trace (fst (bridge.transition last r)) rest
  end.

(** A stream in which every entry has a cause different from the cause of
    the entry before it ([last] before the first), and carries the event of
    its cause. *)
Fixpoint alternating (last : option Card)
  (stream : list (option Card * bridge.message)) : Prop :=
  match stream with
  | [] => True
  | (cause, m) :: rest =>
      cause <> last /\ m = event_of cause /\ alternating cause rest
  end.

(** An operating system that opens the device as [b], answers the ioctl
    with [answer] and lets GPIO exports through as [exports] says. *)
Definition system (b : FileIO) (answer : res PyVal) (exports : Z -> bool)
  : RFIDReader.Env :=
  {| RFIDReader.open_device := fun _ => Ok b;
     RFIDReader.ioctl := fun _ _ => answer;
     RFIDReader.export_ok := exports |}.

(** ** commands/bridge.py: [main] *)

Module bridge_main.

(** A call on the MQTT client object of [main]. *)
Inductive call : Type :=
  | connect (host port : PyVal)
  | loop_start
  | published (m : bridge.message)
  | loop_stop.

(** [parser.parse_args()] for a command line that parses: the namespace has
    one attribute per [add_argument] of the parser, named after the
    argument: ["hostname"], and ["port"] converted by [type=int].  (A
    command line that does not parse ends the process inside argparse.) *)
Definition parse_args (hostname : string) (port : Z) : gmap string PyVal :=
  list_to_map [ ("hostname"%string, PyStr hostname); ("port"%string, PyInt port) ].

(** What [main] acts on: the client, as the calls made on it so far, and
    the GPIO control files and standard output. *)
Record process : Type := {
  broker : list call;
  outside : RFIDReader.World
}.

(** What the surroundings answer: to the construction of the reader, and to
    [client.connect]. *)
Record Os : Type := {
  reader_env : RFIDReader.Env;
  connect_result : res unit
}.

(** [main] from [client.connect(host, port)] on, once the two arguments of
    the call have their values; [loop] is cut off after [n] iterations, and
    the result is the exception that ends [main] or [None] while the loop is
    still running.  The [finally] clause runs when the [try] block is left
    by an exception. *)
Definition serve (os : Os) (n : nat) (host port : PyVal) (p : process)
  : option exn * process :=
  let connected := broker p ++ [connect host port] in
  match connect_result os with
  | Raise e => (Some e, {| broker := connected; outside := outside p |})
  | Ok _ =>
      let started := connected ++ [loop_start] in
      match RFIDReader.init (reader_env os) 1 0x50 (Some 4) None (outside p) with
      | (Raise e, w) =>
          (Some e, {| broker := started ++ [loop_stop]; outside := w |})
      | (Ok rfid, w) =>
          match bridge.loop n rfid [] with
          | (Some e, f) =>
              (Some e,
               {| broker := started ++ map published (bridge.client f)
                              ++ [loop_stop];
                  outside := w |})
          | (None, f) =>
              (None,
               {| broker := started ++ map published (bridge.client f);
                  outside := w |})
          end
      end
  end.

(** [main()]: the arguments [args.host] and [args.port] are evaluated
    before [client.connect] is called. *)
Definition main (os : Os) (n : nat) (hostname : string) (port : Z) (p : process)
  : option exn * process :=
  let args := parse_args hostname port in
  match args !! "host"%string with
  | None => (Some (AttributeError "host"), p)
  | Some host =>
      match args !! "port"%string with
      | None => (Some (AttributeError "port"), p)
      | Some port' => serve os n host port' p
      end
  end.

End bridge_main.

(** ** More vocabulary *)

(** A stand-in reader that plays back a list of [select()] outcomes, results
    and exceptions alike. *)
#[global] Instance faulty_rfid : bridge.Rfid (list (res (option Card))) :=
  fun script =>
    match script with
    | [] => (Raise StopIteration, [])
    | outcome :: rest => (outcome, rest)
    end.

(** The messages [loop] publishes when fed the finite sequence [results] of
    [select()] results. *)
Definition published (results : list (option Card)) : list bridge.message :=
  bridge.client (snd (bridge.loop (length results) results [])).

(** The reader after [wake()] on a wake pin [g]. *)
Definition after_wake (g : GpioFile) (self : RFIDReader.t) : RFIDReader.t :=
  {| RFIDReader.bus := RFIDReader.bus self;
     RFIDReader.pin_detect := RFIDReader.pin_detect self;
     RFIDReader.pin_wake :=
       Some {| gpio_written := gpio_written g ++ ["1"; "0"]%string;
               gpio_reads := gpio_reads g |} |}.

(** ** Bytes, indexing and slicing *)

Lemma ord_range (c : byte) : 0 <= ord c < 256.
Proof.
  unfold ord. pose proof (Byte.to_N_bounded c). lia.
Qed.

Lemma chr_ord (c : byte) : chr (ord c) = Some c.
Proof.
  unfold chr. pose proof (ord_range c).
  rewrite decide_True by lia.
  unfold ord. rewrite N2Z.id. apply Byte.of_to_N.
Qed.

Lemma ord_chr (n : Z) (c : byte) : chr n = Some c -> ord c = n.
Proof.
  unfold chr. case_decide; [|discriminate].
  intros Hc. apply Byte.to_of_N in Hc. unfold ord. rewrite Hc. lia.
Qed.

Lemma chr_defined (n : Z) : 0 <= n < 256 -> exists c, chr n = Some c /\ ord c = n.
Proof.
  intros Hn. unfold chr. rewrite decide_True by done.
  destruct (Byte.of_N (Z.to_N n)) as [c|] eqn:Hc.
  - exists c. split; [done|]. apply Byte.to_of_N in Hc. unfold ord. lia.
  - apply Byte.of_N_None_iff in Hc. lia.
Qed.

Lemma land_127_range (n : Z) : 0 <= n -> 0 <= Z.land n 127 < 128.
Proof.
  intros Hn. change 127 with (Z.ones 7).
  rewrite Z.land_ones by lia. apply Z.mod_pos_bound. lia.
Qed.

Lemma chr_clean (c : byte) : chr (Z.land (ord c) 127) = Some (clean_byte c).
Proof.
  unfold clean_byte.
  destruct (chr_defined (Z.land (ord c) 127)) as (c' & -> & _); [|done].
  pose proof (ord_range c). pose proof (land_127_range (ord c)). lia.
Qed.

Lemma ord_clean_byte (c : byte) : ord (clean_byte c) = Z.land (ord c) 127.
Proof. apply ord_chr, chr_clean. Qed.

Lemma clean_byte_bit7 (c : byte) : Z.testbit (ord (clean_byte c)) 7 = false.
Proof.
  rewrite ord_clean_byte, Z.land_spec. change (Z.testbit 127 7) with false.
  apply andb_false_r.
Qed.

Lemma clean_byte_small (c : byte) : ord c < 128 -> clean_byte c = c.
Proof.
  intros Hc. pose proof (ord_range c).
  assert (Hl : Z.land (ord c) 127 = ord c).
  { change 127 with (Z.ones 7). rewrite Z.land_ones by lia.
    apply Z.mod_small. lia. }
  pose proof (chr_clean c) as Hk. rewrite Hl, chr_ord in Hk. congruence.
Qed.

Lemma clean_response_map (response : list byte) :
  RFIDReader.clean_response response = Some (map clean_byte response).
Proof.
  unfold RFIDReader.clean_response.
  induction response as [|c response IH]; [done|].
  cbn [map mapM]. rewrite chr_clean. cbn. rewrite IH. done.
Qed.

Lemma py_index_nonneg {A} (s : list A) (i : Z) :
  0 <= i -> py_index s i = s !! Z.to_nat i.
Proof.
  intros Hi. unfold py_index, len. cbv zeta.
  destruct (decide (i < 0)) as [Hneg|_]; [lia|].
  case_decide; [done|]. symmetry. apply lookup_ge_None. lia.
Qed.

Lemma py_slice_nonneg {A} (s : list A) (lo hi : Z) :
  0 <= lo <= hi ->
  py_slice s lo hi = take (Z.to_nat hi - Z.to_nat lo) (drop (Z.to_nat lo) s).
Proof.
  intros H. unfold py_slice, clip, len.
  destruct (decide (hi < 0)) as [Hneg|_]; [lia|].
  destruct (decide (lo < 0)) as [Hneg|_]; [lia|].
  destruct (decide (Z.of_nat (length s) <= lo)) as [Hge|Hlt].
  - rewrite !drop_ge by lia. by rewrite !take_nil.
  - rewrite (Z.min_l lo) by lia.
    destruct (decide (hi <= Z.of_nat (length s))).
    + rewrite Z.min_l by lia. f_equal. lia.
    + rewrite Z.min_r by lia.
      rewrite !take_ge; [done| |]; rewrite length_drop; lia.
Qed.

(** ** The codec: [read] and [write] *)

Lemma decode_eq {S} (response : list byte) (s : S) :
  RFIDReader.decode response s =
  match response with
  | r0 :: r1 :: r2 :: _ =>
      (Ok (ord (clean_byte r1), ord (clean_byte r2),
           py_slice (map clean_byte response) 3 (ord r0 + 1)), s)
  | _ => (Raise IndexError, s)
  end.
Proof.
  unfold RFIDReader.decode, bind.
  rewrite clean_response_map, py_index_nonneg by lia.
  destruct response as [|r0 [|r1 [|r2 rest]]]; cbn [lookup list_lookup orelse raise ret Z.to_nat];
    try reflexivity;
    rewrite !py_index_nonneg by lia; reflexivity.
Qed.

Lemma read_eq (self : RFIDReader.t) :
  RFIDReader.read self = RFIDReader.decode (next_response self) (after_read self).
Proof.
  unfold RFIDReader.read, bind, RFIDReader.on_bus, FileIO_read, next_response,
    after_read.
  destruct self as [[w [|r rs]] pd pw]; reflexivity.
Qed.

Lemma write_eq (command : Z) (data : list byte) (self : RFIDReader.t) :
  RFIDReader.write command data self =
  if decide (len data > 254) then (Raise RFIDReader.too_long, self)
  else if decide (0 <= command <= 255) then
    (Ok tt, after_write (default x00 (chr (1 + len data))
                           :: default x00 (chr command) :: data) self)
  else (Raise RFIDReader.invalid_command, self).
Proof.
  unfold RFIDReader.write.
  destruct (decide (1 + len data > 255)) as [Hl|Hl].
  { rewrite decide_True by lia. done. }
  rewrite decide_False by lia.
  destruct (decide (0 <= command <= 255)) as [Hc|Hc].
  - rewrite bool_decide_eq_true_2 by done. cbn [negb].
    assert (0 <= len data) by (unfold len; lia).
    destruct (chr_defined (1 + len data)) as (l & Hl' & _); [lia|].
    destruct (chr_defined command) as (c & Hc' & _); [lia|].
    unfold bind. rewrite Hl', Hc'. reflexivity.
  - rewrite bool_decide_eq_false_2 by done. reflexivity.
Qed.

Lemma errors_differ : RFIDReader.too_long <> RFIDReader.invalid_command.
Proof. discriminate. Qed.

(** C3, as stated, fails: the specification's decoder takes the length from
    the cleaned byte 0, the code from byte 0 as received.  A nine-byte
    response whose first byte is 0x84 gives six data bytes in the code and
    two in the specification's reading. *)
Lemma read_length_not_cleaned :
  let raw := [x84; x81; x80; x01; x02; x03; x04; x05; x06] in
  fst (RFIDReader.read (mock [raw]))
    = Ok (1, 0, [x01; x02; x03; x04; x05; x06])
  /\ decode_as_specified raw = Ok (1, 0, [x01; x02])
  /\ fst (RFIDReader.read (mock [raw])) <> decode_as_specified raw.
Proof.
  cbv zeta. split; [|split]; [vm_compute; reflexivity ..|].
  vm_compute. discriminate.
Qed.

(** C3, amended: [read] clears bit 7 of every byte of the response
    ([c & 127]) and takes the command from cleaned byte 1, the status from
    cleaned byte 2 and the data from the cleaned bytes 3 up to (not
    including) index [length + 1], where [length] is byte 0 as received,
    before cleaning. *)
Theorem read_fields (self : RFIDReader.t) (r0 r1 r2 : byte) :
  let response := next_response self in
  let cleaned := map clean_byte response in
  response !! 0%nat = Some r0 ->
  response !! 1%nat = Some r1 ->
  response !! 2%nat = Some r2 ->
  (forall (i : nat) (c : byte), response !! i = Some c ->
     exists c', cleaned !! i = Some c' /\ ord c' = Z.land (ord c) 127
                /\ Z.testbit (ord c') 7 = false)
  /\ RFIDReader.read self
     = (Ok (Z.land (ord r1) 127, Z.land (ord r2) 127,
            py_slice cleaned 3 (ord r0 + 1)),
        after_read self).
Proof.
  intros response cleaned H0 H1 H2. split.
  - intros i c Hi. exists (clean_byte c). split; [|split].
    + unfold cleaned. by rewrite list_lookup_fmap, Hi.
    + apply ord_clean_byte.
    + apply clean_byte_bit7.
  - rewrite read_eq, decode_eq. fold response.
    destruct response as [|a0 [|a1 [|a2 rest]]] eqn:E; try discriminate.
    cbn in H0, H1, H2. simplify_eq.
    rewrite !ord_clean_byte. reflexivity.
Qed.

(** The four-byte card response of the end-to-end scenario, decoded. *)
Lemma read_fields_witness :
  RFIDReader.read (mock [[x86; x81; x80; x81; x82; x83; x84]])
  = (Ok (1, 0, [x01; x02; x03; x04]), mock []).
Proof.
  exact (proj2 (read_fields (mock [[x86; x81; x80; x81; x82; x83; x84]])
                  x86 x81 x80 eq_refl eq_refl eq_refl)).
Defined.

(** C4, as stated, fails: a three-byte response whose length byte asks for
    eleven bytes is decoded without any error. *)
Lemma read_accepts_short_frame :
  let raw := [x0a; x01; x00] in
  len raw < ord x0a + 1
  /\ fst (RFIDReader.read (mock [raw])) = Ok (1, 0, []).
Proof. cbv zeta. split; vm_compute; reflexivity. Qed.

(** C4, amended: [read] has no check of the response against its length
    byte.  It fails, with IndexError, exactly when the response has fewer
    than three bytes; any longer response is decoded, and when it has at most
    [length + 1] bytes the data is all that follows the first three bytes. *)
Theorem read_short_frame (self : RFIDReader.t) :
  let response := next_response self in
  (fst (RFIDReader.read self) = Raise IndexError <-> (length response < 3)%nat)
  /\ ((exists v, fst (RFIDReader.read self) = Ok v) <-> (3 <= length response)%nat)
  /\ (forall r0, response !! 0%nat = Some r0 ->
      (3 <= length response)%nat ->
      len response <= ord r0 + 1 ->
      exists command status,
        fst (RFIDReader.read self)
        = Ok (command, status, drop 3 (map clean_byte response))).
Proof.
  intros response. rewrite read_eq, decode_eq. fold response.
  destruct response as [|a0 [|a1 [|a2 rest]]] eqn:E; cbn [fst length].
  1-3: split; [split; [intros _; lia | done] |];
       (split; [split; [intros [v Hv]; discriminate | lia] | intros; lia]).
  split; [split; [discriminate | lia] |].
  split; [split; [lia | eauto] |].
  intros r0 H0 _ Hlen. cbn in H0. simplify_eq.
  eexists _, _. f_equal. f_equal.
  unfold len in Hlen. cbn [length] in Hlen.
  rewrite py_slice_nonneg by lia.
  apply take_ge. rewrite length_drop, length_map. cbn [length]. lia.
Qed.

(** A four-byte response announcing ten: the one byte after the header is
    the data. *)
Lemma read_short_frame_witness :
  exists command status,
    fst (RFIDReader.read (mock [[x0a; x01; x00; x07]]))
    = Ok (command, status, [x07]).
Proof.
  apply (proj2 (proj2 (read_short_frame (mock [[x0a; x01; x00; x07]]))) x0a);
    [reflexivity | vm_compute; lia | vm_compute; discriminate].
Defined.

(** C9, as stated, fails: with 255 data bytes and the command 256, outside
    0..255, [write] raises the error about the data, not the one about the
    command. *)
Lemma write_long_data_hides_command :
  ~ (0 <= 256 <= 255)
  /\ fst (RFIDReader.write 256 (replicate 255 x00) (mock []))
     = Raise RFIDReader.too_long
  /\ fst (RFIDReader.write 256 (replicate 255 x00) (mock []))
     <> Raise RFIDReader.invalid_command.
Proof.
  split; [lia|]. split; [vm_compute; reflexivity|].
  vm_compute. discriminate.
Qed.

(** C9, amended: [write] raises the payload error exactly when
    [len(data) > 254]; it raises the command error exactly when
    [len(data) <= 254] and the command lies outside 0..255 (the length is
    checked first); a failing call writes nothing; and for every other
    [(command, data)] it writes to the bus exactly the bytes
    [1 + len(data)], [command], then [data] unchanged. *)
Theorem write_outcome (command : Z) (data : list byte) (self : RFIDReader.t) :
  (fst (RFIDReader.write command data self) = Raise RFIDReader.too_long
     <-> len data > 254)
  /\ (fst (RFIDReader.write command data self) = Raise RFIDReader.invalid_command
     <-> len data <= 254 /\ ~ (0 <= command <= 255))
  /\ (forall e, fst (RFIDReader.write command data self) = Raise e ->
      snd (RFIDReader.write command data self) = self)
  /\ (len data <= 254 -> 0 <= command <= 255 ->
      exists l c : byte,
        ord l = 1 + len data /\ ord c = command
        /\ RFIDReader.write command data self
           = (Ok tt, after_write ([l; c] ++ data) self)).
Proof.
  rewrite write_eq.
  destruct (decide (len data > 254)) as [Hl|Hl]; cbn [fst snd].
  { split; [done|]. split; [|split; [done | lia]].
    split; [intros [=] | lia]. }
  destruct (decide (0 <= command <= 255)) as [Hc|Hc]; cbn [fst snd].
  - split; [split; [discriminate | lia] |].
    split; [split; [discriminate | tauto] |].
    split; [discriminate |]. intros _ _.
    assert (0 <= len data) by (unfold len; lia).
    destruct (chr_defined (1 + len data)) as (l & -> & Hol); [lia|].
    destruct (chr_defined command) as (c & -> & Hoc); [lia|].
    exists l, c. done.
  - split; [split; [intros [=] | lia] |].
    split; [split; [intros _; split; [lia | done] | done] |].
    split; [done | tauto].
Qed.

(** A command with two data bytes. *)
Lemma write_outcome_witness :
  exists l c : byte,
    ord l = 1 + len [x01; x02] /\ ord c = 5
    /\ RFIDReader.write 5 [x01; x02] (mock [])
       = (Ok tt, after_write ([l; c] ++ [x01; x02]) (mock [])).
Proof.
  apply (proj2 (proj2 (proj2 (write_outcome 5 [x01; x02] (mock [])))));
    vm_compute; [discriminate | split; discriminate].
Defined.

(** ** Transactions *)

Lemma read_ranges (self self' : RFIDReader.t) (rc status : Z) (data : list byte) :
  RFIDReader.read self = (Ok (rc, status, data), self') ->
  0 <= rc < 128 /\ 0 <= status < 128.
Proof.
  rewrite read_eq, decode_eq.
  destruct (next_response self) as [|r0 [|r1 [|r2 rest]]]; try discriminate.
  intros [= <- <- _ _]. rewrite !ord_clean_byte.
  pose proof (ord_range r1). pose proof (ord_range r2).
  split; apply land_127_range; lia.
Qed.

Lemma transaction_eq (command : Z) (data : list byte) (self : RFIDReader.t) :
  RFIDReader.transaction command data self =
  match RFIDReader.write command data self with
  | (Raise e, self1) => (Raise e, self1)
  | (Ok _, self1) =>
      match RFIDReader.read self1 with
      | (Raise e, self2) => (Raise e, self2)
      | (Ok (rc, status, rdata), self2) =>
          if decide (rc = command) then (Ok (status, rdata), self2)
          else (Raise RFIDReader.mismatch, self2)
      end
  end.
Proof.
  unfold RFIDReader.transaction, bind.
  destruct (RFIDReader.write command data self) as [[[]|e] self1]; [|done].
  destruct (RFIDReader.read self1) as [[[[rc status] rdata]|e] self2]; [|done].
  destruct (decide (rc = command)) as [->|Hne].
  - rewrite decide_False by (intros Hn; by apply Hn). done.
  - rewrite decide_True by done. done.
Qed.

(** C7: once the request is written and the response decoded,
    [transaction] raises the mismatch error whenever the decoded command
    differs from the request command, whatever the status (success
    included), and returns the decoded status and data when they agree. *)
Theorem transaction_command_check
  (command : Z) (data : list byte) (self self1 self2 : RFIDReader.t)
  (rc status : Z) (rdata : list byte) :
  RFIDReader.write command data self = (Ok tt, self1) ->
  RFIDReader.read self1 = (Ok (rc, status, rdata), self2) ->
  (rc <> command ->
     RFIDReader.transaction command data self = (Raise RFIDReader.mismatch, self2))
  /\ (rc = command ->
     RFIDReader.transaction command data self = (Ok (status, rdata), self2)).
Proof.
  intros Hw Hr. rewrite transaction_eq, Hw, Hr.
  split; intros H; [by rewrite decide_False | by rewrite decide_True].
Qed.

(** A response to command 2, with success status, to a request of command 1. *)
Lemma transaction_command_check_witness :
  RFIDReader.transaction 1 [] (mock [[x83; x82; x80]])
  = (Raise RFIDReader.mismatch, after_write [x01; x01] (mock [])).
Proof.
  apply (proj1 (transaction_command_check 1 [] (mock [[x83; x82; x80]])
                  (after_write [x01; x01] (mock [[x83; x82; x80]]))
                  (after_write [x01; x01] (mock []))
                  2 0 [] eq_refl eq_refl)).
  discriminate.
Defined.

(** C10: a request command in 128..255 passes the check of [write], but
    whatever response is then decoded, [transaction] raises the mismatch
    error, the decoded command being at most 127; so [transaction] returns
    only for request commands in 0..127. *)
Theorem transaction_high_command
  (command : Z) (data : list byte) (self : RFIDReader.t) :
  (128 <= command <= 255 ->
     forall self1 self2 r,
       RFIDReader.write command data self = (Ok tt, self1) ->
       RFIDReader.read self1 = (Ok r, self2) ->
       RFIDReader.transaction command data self
       = (Raise RFIDReader.mismatch, self2))
  /\ (forall v self',
       RFIDReader.transaction command data self = (Ok v, self') ->
       0 <= command <= 127).
Proof.
  split.
  - intros Hc self1 self2 [[rc status] rdata] Hw Hr.
    rewrite transaction_eq, Hw, Hr.
    apply read_ranges in Hr. rewrite decide_False by lia. done.
  - intros v self'. rewrite transaction_eq.
    destruct (RFIDReader.write command data self) as [[[]|e] self1]; [|done].
    destruct (RFIDReader.read self1) as [[[[rc status] rdata]|e] self2] eqn:Hr;
      [|done].
    apply read_ranges in Hr.
    destruct (decide (rc = command)) as [->|Hne]; [|done]. lia.
Qed.

(** Command 200 answered by its own echo, which [read] turns into 72. *)
Lemma transaction_high_command_witness :
  128 <= 200 <= 255
  /\ RFIDReader.transaction 200 [] (mock [[x83; xc8; x80]])
     = (Raise RFIDReader.mismatch, after_write [x01; xc8] (mock [])).
Proof.
  split; [lia|].
  apply (proj1 (transaction_high_command 200 [] (mock [[x83; xc8; x80]]))
           ltac:(lia)
           (after_write [x01; xc8] (mock [[x83; xc8; x80]]))
           (after_write [x01; xc8] (mock []))
           (72, 0, [])); reflexivity.
Defined.

(** ** The round trip of [write] and [read] *)

Lemma clean_set_msb (c : byte) : clean_byte (set_msb c) = clean_byte c.
Proof. destruct c; reflexivity. Qed.

Lemma ord_set_msb (c : byte) : ord c <= ord (set_msb c).
Proof. destruct c; vm_compute; discriminate. Qed.

Lemma roundtrip_eq (command : Z) (status : byte) (payload : list byte) :
  0 <= command <= 255 ->
  len (status :: payload) <= 254 ->
  roundtrip command (status :: payload)
  = Ok (Z.land command 127, Z.land (ord status) 127, map clean_byte payload).
Proof.
  intros Hc Hl. unfold roundtrip. rewrite write_eq.
  rewrite decide_False, decide_True by lia.
  assert (0 <= len (status :: payload)) by (unfold len; lia).
  destruct (chr_defined (1 + len (status :: payload))) as (l & -> & Hol); [lia|].
  destruct (chr_defined command) as (c & -> & Hoc); [lia|].
  cbn [default after_write mock RFIDReader.bus written app map].
  rewrite read_eq, decode_eq. unfold next_response.
  cbn [mock RFIDReader.bus pending fst].
  unfold len in *. cbn [length] in *.
  rewrite take_ge by (cbn [length]; rewrite length_map; lia).
  unfold id. rewrite !clean_set_msb, !ord_clean_byte, Hoc.
  pose proof (ord_set_msb l).
  cbn [fst]. do 2 f_equal. rewrite py_slice_nonneg by lia.
  cbn [map]. replace (Z.to_nat 3) with 3%nat by lia. cbn [drop].
  rewrite take_ge by (rewrite drop_0, !length_map; lia).
  rewrite drop_0, <- list_fmap_compose. apply list_fmap_ext.
  intros i x _. apply clean_set_msb.
Qed.

(** C5, as stated, fails: the frame [write] produces has no status byte, so
    the decoder takes the first data byte for the status and returns the
    rest; with no data at all it fails. *)
Lemma roundtrip_loses_first_data_byte :
  roundtrip 1 [x05; x06] = Ok (1, 5, [x06])
  /\ (forall status, roundtrip 1 [x05; x06] <> Ok (1, status, [x05; x06]))
  /\ roundtrip 1 [] = Raise IndexError.
Proof.
  split; [vm_compute; reflexivity|]. split; [|vm_compute; reflexivity].
  intros status. vm_compute. intros [= _ ].
Qed.

(** C5, amended: for every command in 0..127 and every data made of a first
    byte [status] followed by [payload], all bytes below 0x80 and
    [len(data) <= 254], reading back what [write(command, data)] wrote, with
    the most significant bit of every byte set on the way, yields the
    command, [status] as the status, and [payload] as the data. *)
Theorem roundtrip_7bit (command : Z) (status : byte) (payload : list byte) :
  0 <= command <= 127 ->
  Forall (fun c => ord c < 128) (status :: payload) ->
  len (status :: payload) <= 254 ->
  roundtrip command (status :: payload) = Ok (command, ord status, payload).
Proof.
  intros Hc Hb Hl. rewrite roundtrip_eq by lia.
  apply Forall_cons in Hb as [Hs Hp].
  assert (Hcommand : Z.land command 127 = command).
  { change 127 with (Z.ones 7). rewrite Z.land_ones by lia.
    apply Z.mod_small. lia. }
  assert (Hpayload : map clean_byte payload = payload).
  { induction Hp as [|c payload' Hc' _ IH]; [done|].
    cbn [map]. rewrite clean_byte_small by done.
    f_equal. apply IH. unfold len in *. cbn [length] in *. lia. }
  by rewrite Hcommand, Hpayload, <- ord_clean_byte, clean_byte_small.
Qed.

(** Command 1 with success status and the card bytes 01 02 03 04. *)
Lemma roundtrip_7bit_witness :
  roundtrip 1 [x00; x01; x02; x03; x04] = Ok (1, 0, [x01; x02; x03; x04]).
Proof.
  apply (roundtrip_7bit 1 x00 [x01; x02; x03; x04]).
  - lia.
  - repeat constructor.
  - vm_compute. discriminate.
Defined.

(** ** Card selection *)

Lemma no_COMMAND_SELECT : RFIDReader.namespace !! "COMMAND_SELECT"%string = None.
Proof. vm_compute. reflexivity. Qed.

Lemma select_raises (self : RFIDReader.t) :
  RFIDReader.select self = (Raise (AttributeError "COMMAND_SELECT"), self).
Proof.
  unfold RFIDReader.select, bind, RFIDReader.class_const.
  rewrite no_COMMAND_SELECT. reflexivity.
Qed.

(** What the rest of [select] computes for the bus of the end-to-end
    scenario, had the command code been defined (as 0x01). *)
Lemma select_with_end_to_end :
  RFIDReader.select_with 1 (mock [[x86; x81; x80; x81; x82; x83; x84]])
  = (Ok (Some (4, [x01; x02; x03])), after_write [x01; x01] (mock [])).
Proof. vm_compute. reflexivity. Qed.

(** C1 does not hold of the code: on the bus of the end-to-end scenario
    (the response bytes for command, success status and data 01 02 03 04,
    most significant bits set) [select] returns no card; it raises
    AttributeError and leaves the bus untouched. *)
Theorem select_end_to_end :
  let self := mock [[x86; x81; x80; x81; x82; x83; x84]] in
  RFIDReader.select self = (Raise (AttributeError "COMMAND_SELECT"), self)
  /\ fst (RFIDReader.select self) <> Ok (Some (4, [x01; x02; x03])).
Proof.
  cbv zeta. rewrite select_raises. split; [reflexivity | discriminate].
Qed.

(** C2: the class namespace has no [COMMAND_SELECT]; therefore every call
    of [select] raises AttributeError with the reader unchanged (nothing
    written to or read from the bus), every call of [poll] raises
    AttributeError with the bus unchanged, and [loop] on a reader is left
    by that exception in its first iteration, with nothing published. *)
Theorem select_always_raises (self : RFIDReader.t) :
  RFIDReader.namespace !! "COMMAND_SELECT"%string = None
  /\ RFIDReader.select self = (Raise (AttributeError "COMMAND_SELECT"), self)
  /\ (forall r self', RFIDReader.select self <> (Ok r, self'))
  /\ (exists name self',
        RFIDReader.poll self = (Raise (AttributeError name), self')
        /\ RFIDReader.bus self' = RFIDReader.bus self)
  /\ (forall n client,
        bridge.loop (S n) self client
        = (Some (AttributeError "COMMAND_SELECT"),
           {| bridge.rfid := self; bridge.client := client;
              bridge.present := None |})).
Proof.
  split; [apply no_COMMAND_SELECT|].
  split; [apply select_raises|].
  split; [intros r self'; rewrite select_raises; discriminate|].
  split.
  - unfold RFIDReader.poll, bind, RFIDReader.pin_detect_read.
    destruct (RFIDReader.pin_detect self) as [g|]; [|by eauto].
    rewrite select_raises. eauto.
  - intros n client. unfold bridge.loop. cbn [bridge.run].
    unfold bridge.iteration, bridge.rfid_select, bridge.reader_rfid.
    cbn [bridge.rfid bridge.client bridge.present].
    rewrite select_raises. reflexivity.
Qed.

(** ** Construction *)

Lemma init_eq (b : FileIO) (v : PyVal) (exports : Z -> bool)
  (bus_number address : Z) (detect wake : option Z) (world : RFIDReader.World) :
  let env := system b (Ok v) exports in
  (v <> PyNone ->
     RFIDReader.init env bus_number address detect wake world
     = (Raise (RFIDReader.bind_error v), world))
  /\ (v = PyNone ->
     exists self world',
       RFIDReader.init env bus_number address detect wake world
       = (Ok self, world')
       /\ RFIDReader.bus self = b).
Proof.
  cbv zeta. unfold RFIDReader.init, bind, RFIDReader.lift, system.
  cbn [RFIDReader.open_device RFIDReader.ioctl RFIDReader.export_ok].
  split.
  - intros Hv. destruct v; [done | reflexivity ..].
  - intros ->. cbn [is_not_None].
    destruct detect as [d|], wake as [w|]; unfold RFIDReader.try_export;
      cbn [RFIDReader.export_ok];
      repeat (match goal with |- context [exports ?p] => destruct (exports p) end);
      cbn; eauto.
Qed.

(** C8 does not hold of the code: when the set-slave-address ioctl succeeds
    (the C call returns 0, which [fcntl.ioctl] hands back as the integer 0),
    [__init__] raises the binding error; and whatever the C call returns,
    construction never gets past the binding step. *)
Theorem init_rejects_bound_address
  (b : FileIO) (exports : Z -> bool) (bus_number address : Z)
  (detect wake : option Z) (world : RFIDReader.World) (c_ret errno : Z) :
  RFIDReader.init (system b (RFIDReader.fcntl_ioctl 0 errno) exports)
    bus_number address detect wake world
  = (Raise (RFIDReader.bind_error (PyInt 0)), world)
  /\ exists e,
      RFIDReader.init (system b (RFIDReader.fcntl_ioctl c_ret errno) exports)
        bus_number address detect wake world
      = (Raise e, world).
Proof.
  split.
  - apply (init_eq b (PyInt 0)). discriminate.
  - unfold RFIDReader.fcntl_ioctl. case_decide.
    + eexists. reflexivity.
    + eexists. apply (init_eq b (PyInt c_ret)). discriminate.
Qed.

(** ** The presence loop *)

Lemma transition_eq (last result : option Card) :
  bridge.transition last result
  = (result, if decide (result = last) then [] else [event_of result]).
Proof.
  unfold bridge.transition. destruct result as [info|].
  - destruct (decide (Some info = last)) as [<-|Hne].
    + rewrite decide_False by (intros Hn; by apply Hn). done.
    + rewrite decide_True by congruence. done.
  - destruct (decide (None = last)) as [<-|Hne].
    + rewrite decide_False by (intros Hn; by apply Hn). done.
    + rewrite decide_True by congruence. done.
Qed.

Lemma trace_cons (last result : option Card) (rest : list (option Card)) :
  trace last (result :: rest)
  = (if decide (result = last) then [] else [(result, event_of result)])
      ++ trace result rest.
Proof.
  cbn [trace]. rewrite transition_eq. cbn [fst snd].
  by destruct (decide (result = last)).
Qed.

Lemma trace_alternating (results : list (option Card)) :
  forall last, alternating last (trace last results).
Proof.
  induction results as [|result rest IH]; intros last; [done|].
  rewrite trace_cons. destruct (decide (result = last)) as [->|Hne].
  - apply IH.
  - cbn. auto.
Qed.

Lemma alternating_adjacent (stream before after : list (option Card * bridge.message))
  (c1 c2 : option Card) (m1 m2 : bridge.message) :
  forall last,
    alternating last stream ->
    stream = before ++ (c1, m1) :: (c2, m2) :: after ->
    c2 <> c1 /\ m1 = event_of c1 /\ m2 = event_of c2.
Proof.
  revert stream. induction before as [|[c m] before IH]; intros stream last Hs ->.
  - cbn in Hs. tauto.
  - cbn [app alternating] in Hs. destruct Hs as (_ & _ & Hs). by eapply IH.
Qed.

Lemma alternating_first (stream after : list (option Card * bridge.message))
  (c : option Card) (m : bridge.message) (last : option Card) :
  alternating last stream ->
  stream = (c, m) :: after ->
  c <> last /\ m = event_of c.
Proof. intros Hs ->. cbn in Hs. tauto. Qed.

Lemma last_nonempty {A} (l : list A) :
  forall a d d', List.last (a :: l) d = List.last (a :: l) d'.
Proof.
  induction l as [|b l IH]; intros a d d'; [done|].
  change (List.last (b :: l) d = List.last (b :: l) d'). apply IH.
Qed.

Lemma run_scripted (results : list (option Card)) :
  forall (log : list bridge.message) (last : option Card),
    bridge.run (length results)
      {| bridge.rfid := results; bridge.client := log; bridge.present := last |}
    = (None,
       {| bridge.rfid := [];
          bridge.client := log ++ map snd (trace last results);
          bridge.present := List.last results last |}).
Proof.
  induction results as [|result rest IH]; intros log last.
  - cbn. by rewrite app_nil_r.
  - cbn [length bridge.run]. unfold bridge.iteration.
    cbn [bridge.rfid_select bridge.scripted_rfid bridge.rfid bridge.client
         bridge.present].
    unfold bridge.rfid_select, bridge.scripted_rfid.
    destruct (bridge.transition last result) as [p out] eqn:Ht.
    rewrite IH. cbn [trace]. rewrite Ht. cbn [fst snd].
    rewrite map_app, map_map, app_assoc. cbn [snd]. rewrite map_id.
    assert (p = result) as -> by (rewrite transition_eq in Ht; congruence).
    assert (List.last rest result = List.last (result :: rest) last) as ->;
      [|done].
    destruct rest as [|next rest]; [done|].
    change (List.last (next :: rest) result = List.last (next :: rest) last).
    apply last_nonempty.
Qed.

(** C6: the transition logic of [loop], started with [present = None] and
    fed a finite sequence of [select()] results.  A result [Some info]
    different from [present] publishes the presented message for [info], a
    result [None] while [present] is a card publishes the removed message,
    every other result publishes nothing, and [present] becomes the result.
    The messages published over the whole sequence are those of [trace];
    the sequence None, A, A, None, B, None publishes presented A, removed,
    presented B, removed; two consecutive messages never have the same
    cause (so a card is not presented twice in a row), and a removed message
    always comes directly after the presented message of a card. *)
Theorem loop_transitions :
  (forall last result,
     fst (bridge.transition last result) = result
     /\ (forall info, result = Some info -> last <> Some info ->
         snd (bridge.transition last result) = [card_presented info])
     /\ (forall info, result = Some info -> last = Some info ->
         snd (bridge.transition last result) = [])
     /\ (result = None -> last <> None ->
         snd (bridge.transition last result) = [card_removed])
     /\ (result = None -> last = None ->
         snd (bridge.transition last result) = []))
  /\ (forall results log,
       fst (bridge.loop (length results) results log) = None
       /\ bridge.client (snd (bridge.loop (length results) results log))
          = log ++ map snd (trace None results))
  /\ (forall A B : Card,
       bridge.client
         (snd (bridge.loop 6 [None; Some A; Some A; None; Some B; None] []))
       = [card_presented A; card_removed; card_presented B; card_removed])
  /\ (forall results before after c1 m1 c2 m2,
       trace None results = before ++ (c1, m1) :: (c2, m2) :: after ->
       c2 <> c1)
  /\ (forall results before after m,
       trace None results = before ++ (None, m) :: after ->
       m = card_removed
       /\ exists before' info,
           before = before' ++ [(Some info, card_presented info)]).
Proof.
  split; [|split; [|split; [|split]]].
  - intros last result. rewrite transition_eq. cbn [fst snd].
    split; [done|]. split; [|split; [|split]].
    + intros info -> Hne. by rewrite decide_False by congruence.
    + intros info -> ->. by rewrite decide_True.
    + intros -> Hne. by rewrite decide_False by congruence.
    + intros -> ->. by rewrite decide_True.
  - intros results log. unfold bridge.loop. by rewrite run_scripted.
  - intros A B. unfold bridge.loop.
    rewrite (run_scripted [None; Some A; Some A; None; Some B; None]).
    cbn [bridge.client app]. rewrite !trace_cons. cbn [trace].
    repeat (case_decide; try congruence). reflexivity.
  - intros results before after c1 m1 c2 m2 Ht.
    by destruct (alternating_adjacent _ _ _ _ _ _ _ None
                   (trace_alternating results None) Ht).
  - intros results before after m Ht.
    pose proof (trace_alternating results None) as Halt.
    destruct (decide (before = [])) as [->|Hne].
    + destruct (alternating_first _ _ _ _ _ Halt Ht) as [Hc _]. done.
    + destruct (exists_last Hne) as (before' & [c0 m0] & ->).
      rewrite <- app_assoc in Ht. cbn [app] in Ht.
      destruct (alternating_adjacent _ _ _ _ _ _ _ None Halt Ht)
        as (Hc & Hm0 & Hm).
      split; [done|]. destruct c0 as [info|]; [|done].
      exists before', info. by rewrite Hm0.
Qed.

(** ** Power operations: [sleep] and [wake] *)

Lemma COMMAND_SLEEP_value :
  RFIDReader.namespace !! "COMMAND_SLEEP"%string = Some (RFIDReader.Const 1).
Proof. vm_compute. reflexivity. Qed.

Lemma STATUS_SUCCESS_value :
  RFIDReader.namespace !! "STATUS_SUCCESS"%string = Some (RFIDReader.Const 0).
Proof. vm_compute. reflexivity. Qed.

(** X1: [sleep] never fails; on every reader it writes the one frame
    01 01 (length 1, command [COMMAND_SLEEP], no data) to the bus, reads no
    response and leaves the pins alone. *)
Theorem sleep_frame (self : RFIDReader.t) :
  RFIDReader.sleep self = (Ok tt, after_write [x01; x01] self)
  /\ next_response (snd (RFIDReader.sleep self)) = next_response self.
Proof.
  assert (H : RFIDReader.sleep self = (Ok tt, after_write [x01; x01] self)).
  { unfold RFIDReader.sleep, bind, RFIDReader.class_const.
    rewrite COMMAND_SLEEP_value. unfold ret. rewrite write_eq.
    reflexivity. }
  rewrite H. split; [reflexivity|]. reflexivity.
Qed.

(** X2: [wake] on a reader built without a wake pin raises AttributeError
    and changes nothing; on a reader with a wake pin it succeeds, writes "1"
    and then "0" to the pin (so the pin ends low), and touches neither the
    bus nor the detect pin. *)
Theorem wake_pulse (self : RFIDReader.t) :
  (RFIDReader.pin_wake self = None ->
     RFIDReader.wake self = (Raise (AttributeError "write"), self))
  /\ (forall g, RFIDReader.pin_wake self = Some g ->
        RFIDReader.wake self = (Ok tt, after_wake g self)
        /\ List.last (gpio_written g ++ ["1"; "0"]%string) ""%string = "0"%string).
Proof.
  unfold RFIDReader.wake, bind, RFIDReader.pin_wake_write, after_wake.
  split.
  - intros ->. reflexivity.
  - intros g ->. cbn [RFIDReader.pin_wake RFIDReader.bus RFIDReader.pin_detect].
    unfold GpioFile_write. cbn [gpio_written gpio_reads].
    rewrite <- app_assoc. split; [reflexivity|].
    rewrite (app_assoc _ ["1"%string] ["0"%string]). apply last_last.
Qed.

(** ** More on [read] *)

Lemma py_slice_len {A} (s : list A) (lo hi : Z) :
  0 <= lo -> 0 <= hi ->
  len (py_slice s lo hi) = Z.max 0 (Z.min hi (len s) - Z.min lo (len s)).
Proof.
  intros Hlo Hhi. unfold py_slice, clip, len.
  destruct (decide (hi < 0)) as [Hneg|_]; [lia|].
  destruct (decide (lo < 0)) as [Hneg|_]; [lia|].
  rewrite length_take, length_drop. lia.
Qed.

Lemma py_slice_Forall {A} (P : A -> Prop) (s : list A) (lo hi : Z) :
  Forall P s -> Forall P (py_slice s lo hi).
Proof. intros H. unfold py_slice. by apply Forall_take, Forall_drop. Qed.

Lemma clean_bytes_small (l : list byte) :
  Forall (fun c => ord c < 128) (map clean_byte l).
Proof.
  induction l as [|c l IH]; constructor; [|done].
  rewrite ord_clean_byte. pose proof (ord_range c).
  pose proof (land_127_range (ord c)). lia.
Qed.

Lemma next_response_len (self : RFIDReader.t) : len (next_response self) <= 256.
Proof.
  unfold next_response, len.
  destruct (pending (RFIDReader.bus self)) as [|r rs]; cbn [length]; [lia|].
  rewrite length_take. lia.
Qed.

Lemma read_state (self : RFIDReader.t) :
  snd (RFIDReader.read self) = after_read self.
Proof.
  rewrite read_eq, decode_eq.
  by destruct (next_response self) as [|r0 [|r1 [|r2 rest]]].
Qed.

(** X3: [read] writes nothing and takes exactly one response off the
    device whether or not it can decode it, so a response that makes it
    raise is lost; on a device with nothing to deliver it raises IndexError
    and changes nothing. *)
Theorem read_consumes (self : RFIDReader.t) :
  snd (RFIDReader.read self) = after_read self
  /\ written (RFIDReader.bus (snd (RFIDReader.read self)))
     = written (RFIDReader.bus self)
  /\ pending (RFIDReader.bus (snd (RFIDReader.read self)))
     = tail (pending (RFIDReader.bus self))
  /\ (pending (RFIDReader.bus self) = [] ->
      RFIDReader.read self = (Raise IndexError, self)).
Proof.
  rewrite read_state. split; [done|]. split; [done|]. split; [done|].
  intros Hp. rewrite read_eq, decode_eq. unfold next_response, after_read.
  rewrite Hp. destruct self as [[w p] pd pw]. cbn in Hp. by subst.
Qed.

(** X4: whatever the device delivers, a result of [read] has a command and
    a status in 0..127, data bytes all below 0x80, and as many data bytes
    as lie between index 3 and the smaller of [length + 1] (byte 0 as
    received) and the end of the response: at most 253. *)
Theorem read_result_bounds (self self' : RFIDReader.t)
  (command status : Z) (data : list byte) :
  RFIDReader.read self = (Ok (command, status, data), self') ->
  0 <= command < 128
  /\ 0 <= status < 128
  /\ Forall (fun c => ord c < 128) data
  /\ len data <= 253
  /\ exists r0,
      next_response self !! 0%nat = Some r0
      /\ len data = Z.max 0 (Z.min (ord r0 + 1) (len (next_response self)) - 3).
Proof.
  intros Hr. pose proof (read_ranges _ _ _ _ _ Hr) as [Hc Hs].
  split; [done|]. split; [done|].
  pose proof (next_response_len self) as Hlen.
  rewrite read_eq, decode_eq in Hr.
  destruct (next_response self) as [|r0 [|r1 [|r2 rest]]] eqn:E;
    try discriminate.
  assert (Hd : data = py_slice (map clean_byte (r0 :: r1 :: r2 :: rest)) 3
                       (ord r0 + 1)) by congruence.
  clear Hr. pose proof (ord_range r0).
  assert (Hl : len data
               = Z.max 0 (Z.min (ord r0 + 1) (len (r0 :: r1 :: r2 :: rest)) - 3)).
  { rewrite Hd, py_slice_len by lia. unfold len. rewrite length_map.
    cbn [length]. lia. }
  split; [|split].
  - rewrite Hd. apply py_slice_Forall, clean_bytes_small.
  - rewrite Hl. lia.
  - exists r0. split; [done|]. exact Hl.
Qed.

(** A five-byte response announcing three bytes after the length byte: one
    data byte. *)
Lemma read_result_bounds_witness :
  exists r0,
    next_response (mock [[x03; x81; x80; x85; x86]]) !! 0%nat = Some r0
    /\ len [x05]
       = Z.max 0 (Z.min (ord r0 + 1)
                    (len (next_response (mock [[x03; x81; x80; x85; x86]]))) - 3).
Proof.
  apply (read_result_bounds (mock [[x03; x81; x80; x85; x86]]) (mock [])
           1 0 [x05] eq_refl).
Defined.

(** X5: apart from byte 0, which gives the length as received, [read]
    sees a response only through its cleaned bytes: two responses with the
    same first byte and the same bytes modulo bit 7 give the same result. *)
Theorem read_ignores_msb (self1 self2 : RFIDReader.t) :
  next_response self1 !! 0%nat = next_response self2 !! 0%nat ->
  map clean_byte (next_response self1) = map clean_byte (next_response self2) ->
  fst (RFIDReader.read self1) = fst (RFIDReader.read self2).
Proof.
  intros H0 Hc. rewrite !read_eq, !decode_eq.
  destruct (next_response self1) as [|a0 [|a1 [|a2 arest]]],
           (next_response self2) as [|b0 [|b1 [|b2 brest]]];
    try discriminate; try reflexivity.
  cbn in H0. injection H0 as <-. cbn [fst]. rewrite <- Hc.
  cbn [map] in Hc. injection Hc as -> -> _. reflexivity.
Qed.

(** The same card response with and without the high bits of its last six
    bytes. *)
Lemma read_ignores_msb_witness :
  fst (RFIDReader.read (mock [[x06; x81; x80; x81; x82; x83; x84]]))
  = fst (RFIDReader.read (mock [[x06; x01; x00; x01; x02; x03; x04]])).
Proof.
  apply (read_ignores_msb (mock [[x06; x81; x80; x81; x82; x83; x84]])
           (mock [[x06; x01; x00; x01; x02; x03; x04]]));
    reflexivity.
Defined.

(** ** More on [transaction] *)

(** X6: a request that [write] refuses (more than 254 data bytes, or a
    command outside 0..255) makes [transaction] raise that ValueError before
    any I/O: nothing is written and no response is taken off the device. *)
Theorem transaction_rejects_before_io
  (command : Z) (data : list byte) (self : RFIDReader.t) :
  (len data > 254 ->
     RFIDReader.transaction command data self = (Raise RFIDReader.too_long, self))
  /\ (len data <= 254 -> ~ (0 <= command <= 255) ->
     RFIDReader.transaction command data self
     = (Raise RFIDReader.invalid_command, self)).
Proof.
  rewrite transaction_eq, write_eq. split.
  - intros Hl. by rewrite decide_True.
  - intros Hl Hc. by rewrite decide_False, decide_False by lia.
Qed.

(** X7: for a request that [write] accepts, [transaction] always writes
    exactly one frame (length byte, command, data) and takes exactly one
    response off the device, whatever the outcome; it raises IndexError when
    that response has fewer than three bytes (a silent device included),
    the mismatch error when the cleaned byte 1 is not the request command,
    and otherwise returns the cleaned status and the data slice. *)
Theorem transaction_outcome
  (command : Z) (data : list byte) (self : RFIDReader.t) :
  len data <= 254 ->
  0 <= command <= 255 ->
  exists l c : byte,
    ord l = 1 + len data /\ ord c = command
    /\ snd (RFIDReader.transaction command data self)
       = after_read (after_write ([l; c] ++ data) self)
    /\ fst (RFIDReader.transaction command data self)
       = match next_response self with
         | r0 :: r1 :: r2 :: _ =>
             if decide (Z.land (ord r1) 127 = command)
             then Ok (Z.land (ord r2) 127,
                      py_slice (map clean_byte (next_response self)) 3
                        (ord r0 + 1))
             else Raise RFIDReader.mismatch
         | _ => Raise IndexError
         end.
Proof.
  intros Hl Hc. rewrite transaction_eq, write_eq.
  rewrite decide_False, decide_True by lia.
  assert (0 <= len data) by (unfold len; lia).
  destruct (chr_defined (1 + len data)) as (l & -> & Hol); [lia|].
  destruct (chr_defined command) as (c & -> & Hoc); [lia|].
  exists l, c. split; [done|]. split; [done|]. cbn [default from_option id].
  rewrite read_eq, decode_eq.
  change (next_response (after_write (l :: c :: data) self))
    with (next_response self).
  destruct (next_response self) as [|r0 [|r1 [|r2 rest]]]; try done.
  rewrite !ord_clean_byte.
  by destruct (decide (Z.land (ord r1) 127 = command)).
Qed.

(** Command 1 answered by the card response of the end-to-end scenario. *)
Lemma transaction_outcome_witness :
  exists l c : byte,
    ord l = 1 + len (@nil byte) /\ ord c = 1
    /\ snd (RFIDReader.transaction 1 []
              (mock [[x86; x81; x80; x81; x82; x83; x84]]))
       = after_read (after_write ([l; c] ++ [])
                       (mock [[x86; x81; x80; x81; x82; x83; x84]]))
    /\ fst (RFIDReader.transaction 1 []
              (mock [[x86; x81; x80; x81; x82; x83; x84]]))
       = Ok (0, [x01; x02; x03; x04]).
Proof.
  apply (transaction_outcome 1 [] (mock [[x86; x81; x80; x81; x82; x83; x84]]));
    vm_compute; [discriminate | split; discriminate].
Defined.

(** ** The body of [select] *)

Lemma py_index_last {A} (s : list A) (x : A) :
  py_index (s ++ [x]) (len (s ++ [x]) - 1) = Some x.
Proof.
  unfold len. rewrite length_app. cbn [length].
  rewrite py_index_nonneg by lia.
  replace (Z.to_nat (Z.of_nat (length s + 1) - 1)) with (length s + 0)%nat by lia.
  by rewrite lookup_app_r, Nat.add_0_r, Nat.sub_diag by lia.
Qed.

Lemma py_slice_init {A} (s : list A) (x : A) :
  py_slice (s ++ [x]) 0 (len (s ++ [x]) - 1) = s.
Proof.
  unfold len. rewrite length_app. cbn [length].
  rewrite py_slice_nonneg by lia.
  change (Z.to_nat 0) with 0%nat. rewrite drop_0, Nat.sub_0_r.
  replace (Z.to_nat (Z.of_nat (length s + 1) - 1)) with (length s) by lia.
  by rewrite take_app_length.
Qed.

(** X8: the statements of [select] after the command code is known.  An
    exception of [transaction] passes through; a status other than
    [STATUS_SUCCESS] (0) gives [None]; status 0 with at least one data byte
    gives the last data byte as card type and the bytes before it as uid;
    status 0 with no data raises IndexError. *)
Theorem select_with_outcome (command : Z) (self self' : RFIDReader.t) :
  (forall e,
     RFIDReader.transaction command [] self = (Raise e, self') ->
     RFIDReader.select_with command self = (Raise e, self'))
  /\ (forall status data,
     RFIDReader.transaction command [] self = (Ok (status, data), self') ->
     (status <> 0 -> RFIDReader.select_with command self = (Ok None, self'))
     /\ (status = 0 -> data = [] ->
         RFIDReader.select_with command self = (Raise IndexError, self'))
     /\ (status = 0 -> forall uid type, data = uid ++ [type] ->
         RFIDReader.select_with command self
         = (Ok (Some (ord type, uid)), self'))).
Proof.
  unfold RFIDReader.select_with, bind, RFIDReader.class_const.
  rewrite STATUS_SUCCESS_value. unfold ret. split.
  - intros e ->. reflexivity.
  - intros status data ->. split; [|split].
    + intros Hs. by rewrite decide_True.
    + intros -> ->. reflexivity.
    + intros -> uid type ->.
      rewrite decide_False by (intros Hn; by apply Hn).
      by rewrite py_index_last, py_slice_init.
Qed.

(** The card response of the end-to-end scenario, and a success response
    without data. *)
Lemma select_with_outcome_witness :
  RFIDReader.select_with 1 (mock [[x86; x81; x80; x81; x82; x83; x84]])
  = (Ok (Some (4, [x01; x02; x03])), after_write [x01; x01] (mock []))
  /\ RFIDReader.select_with 1 (mock [[x82; x81; x80]])
     = (Raise IndexError, after_write [x01; x01] (mock [])).
Proof.
  split.
  - exact (proj2 (proj2 (proj2 (select_with_outcome 1
                                  (mock [[x86; x81; x80; x81; x82; x83; x84]])
                                  (after_write [x01; x01] (mock [])))
                           0 [x01; x02; x03; x04] eq_refl))
             eq_refl [x01; x02; x03] x04 eq_refl).
  - exact (proj1 (proj2 (proj2 (select_with_outcome 1 (mock [[x82; x81; x80]])
                                  (after_write [x01; x01] (mock [])))
                           0 [] eq_refl))
             eq_refl eq_refl).
Defined.

(** ** More on construction *)

(** X9: every failure of the bus set-up ends [__init__] before a GPIO file
    is touched or a line printed: an exception from opening the device file
    or from the ioctl call passes through, and an ioctl value other than
    [None] raises the binding error, each with the outside world unchanged. *)
Theorem init_fails_before_gpio
  (env : RFIDReader.Env) (bus_number address : Z) (detect wake : option Z)
  (world : RFIDReader.World) :
  (forall e,
     RFIDReader.open_device env bus_number = Raise e ->
     RFIDReader.init env bus_number address detect wake world = (Raise e, world))
  /\ (forall b e,
     RFIDReader.open_device env bus_number = Ok b ->
     RFIDReader.ioctl env I2C_SLAVE address = Raise e ->
     RFIDReader.init env bus_number address detect wake world = (Raise e, world))
  /\ (forall b v,
     RFIDReader.open_device env bus_number = Ok b ->
     RFIDReader.ioctl env I2C_SLAVE address = Ok v ->
     v <> PyNone ->
     RFIDReader.init env bus_number address detect wake world
     = (Raise (RFIDReader.bind_error v), world)).
Proof.
  unfold RFIDReader.init, bind, RFIDReader.lift. split; [|split].
  - intros e ->. reflexivity.
  - intros b e -> ->. reflexivity.
  - intros b v -> -> Hv. by destruct v.
Qed.



(** ** More on the presence loop *)

Lemma last_cons {A} (l : list A) (x d : A) :
  List.last (x :: l) d = List.last l x.
Proof.
  destruct l as [|y l]; [done|].
  change (List.last (y :: l) d = List.last (y :: l) x).
  apply last_nonempty.
Qed.

Lemma last_app_default {A} (xs ys : list A) :
  forall d, List.last (xs ++ ys) d = List.last ys (List.last xs d).
Proof.
  induction xs as [|x xs IH]; intros d; [done|].
  change ((x :: xs) ++ ys) with (x :: (xs ++ ys)).
  by rewrite !last_cons, IH.
Qed.

Lemma trace_app (xs ys : list (option Card)) :
  forall last,
    trace last (xs ++ ys) = trace last xs ++ trace (List.last xs last) ys.
Proof.
  induction xs as [|x xs IH]; intros last; [done|].
  change ((x :: xs) ++ ys) with (x :: (xs ++ ys)).
  rewrite !trace_cons, IH, <- app_assoc, last_cons. done.
Qed.

Lemma trace_repeat (r : option Card) (k : nat) (rest : list (option Card)) :
  forall last, trace last (replicate (S k) r ++ rest) = trace last (r :: rest).
Proof.
  induction k as [|k IH]; intros last; [done|].
  change (replicate (S (S k)) r ++ rest) with (r :: (replicate (S k) r ++ rest)).
  rewrite trace_cons, IH, !trace_cons.
  rewrite (decide_True (P := r = r)) by done. done.
Qed.

Lemma published_eq (results : list (option Card)) :
  published results = map snd (trace None results).
Proof. unfold published, bridge.loop. by rewrite run_scripted. Qed.

Lemma run_script_cut (results : list (option Card)) :
  forall (n : nat) (log : list bridge.message) (last : option Card),
    bridge.run n
      {| bridge.rfid := results; bridge.client := log; bridge.present := last |}
    = if decide (n <= length results)%nat
      then (None,
            {| bridge.rfid := drop n results;
               bridge.client := log ++ map snd (trace last (take n results));
               bridge.present := List.last (take n results) last |})
      else (Some StopIteration,
            {| bridge.rfid := [];
               bridge.client := log ++ map snd (trace last results);
               bridge.present := List.last results last |}).
Proof.
  induction results as [|result rest IH]; intros [|n] log last.
  - cbn. by rewrite app_nil_r.
  - cbn. by rewrite app_nil_r.
  - cbn. by rewrite app_nil_r.
  - cbn [bridge.run]. unfold bridge.iteration.
    cbn [bridge.rfid bridge.client bridge.present].
    unfold bridge.rfid_select at 1, bridge.scripted_rfid.
    rewrite transition_eq, IH. cbn [length take drop].
    assert (Hout : (if decide (result = last) then [] else [event_of result])
                   = map snd (if decide (result = last) then []
                              else [(result, event_of result)]))
      by (by destruct (decide (result = last))).
    destruct (decide (n <= length rest)%nat) as [Hn|Hn],
             (decide (S n <= S (length rest))%nat) as [Hn'|Hn']; try lia;
      by rewrite trace_cons, map_app, app_assoc, last_cons, Hout.
Qed.

(** X11: [loop] cut off after [n] iterations over a playback reader: while
    [n] does not exceed the number of results it has published what a
    complete run over the first [n] results publishes, holds the [n]-th
    result in [present], and has not touched the rest; once the reader is
    used up its exception ends [loop], with all messages kept. *)
Theorem loop_cut (results : list (option Card)) (n : nat)
  (log : list bridge.message) :
  ((n <= length results)%nat ->
     bridge.loop n results log
     = (None,
        {| bridge.rfid := drop n results;
           bridge.client := log ++ published (take n results);
           bridge.present := List.last (take n results) None |}))
  /\ ((length results < n)%nat ->
     bridge.loop n results log
     = (Some StopIteration,
        {| bridge.rfid := [];
           bridge.client := log ++ published results;
           bridge.present := List.last results None |})).
Proof.
  unfold bridge.loop. rewrite run_script_cut, !published_eq. split; intros Hn.
  - by rewrite decide_True.
  - by rewrite decide_False by lia.
Qed.

(** Two iterations over three results. *)
Lemma loop_cut_witness :
  bridge.loop 2 [Some (4, [x01]); None; Some (4, [x02])] []
  = (None,
     {| bridge.rfid := [Some (4, [x02])];
        bridge.client := [] ++ published [Some (4, [x01]); None];
        bridge.present := None |}).
Proof.
  apply (proj1 (loop_cut [Some (4, [x01]); None; Some (4, [x02])] 2 [])).
  cbn. lia.
Defined.

Lemma run_step {R} `{bridge.Rfid R} (n : nat) (f : bridge.frame R) :
  bridge.run (S n) f
  = match bridge.iteration f with
    | (Raise e, f') => (Some e, f')
    | (Ok _, f') => bridge.run n f'
    end.
Proof. reflexivity. Qed.

Lemma run_faulty (before : list (option Card)) (e : exn)
  (after : list (res (option Card))) (n : nat) :
  forall (log : list bridge.message) (last : option Card),
    bridge.run (S (length before + n))
      {| bridge.rfid := map Ok before ++ Raise e :: after;
         bridge.client := log; bridge.present := last |}
    = (Some e,
       {| bridge.rfid := after;
          bridge.client := log ++ map snd (trace last before);
          bridge.present := List.last before last |}).
Proof.
  induction before as [|result rest IH]; intros log last.
  - cbn. by rewrite app_nil_r.
  - cbn [length Nat.add]. rewrite run_step. unfold bridge.iteration.
    cbn [bridge.rfid bridge.client bridge.present map app].
    unfold bridge.rfid_select at 1, faulty_rfid.
    rewrite transition_eq, IH, trace_cons, map_app, app_assoc, last_cons.
    by destruct (decide (result = last)).
Qed.

(** X12: an exception raised by [select()] ends [loop] with that
    exception: the messages for the results before it have been published
    and stay, nothing is published for the failing call, [present] is the
    last result before it, and the reader is not called again. *)
Theorem loop_propagates (before : list (option Card)) (e : exn)
  (after : list (res (option Card))) (n : nat) (log : list bridge.message) :
  bridge.loop (S (length before + n)) (map Ok before ++ Raise e :: after) log
  = (Some e,
     {| bridge.rfid := after;
        bridge.client := log ++ published before;
        bridge.present := List.last before None |}).
Proof. unfold bridge.loop. by rewrite run_faulty, published_eq. Qed.

(** X13: repeated reads do not show: a result that comes several times in
    a row publishes what it publishes coming once, and results [None] at
    the start publish nothing. *)
Theorem published_debounce (xs ys : list (option Card)) (r : option Card)
  (k : nat) :
  published (xs ++ replicate (S k) r ++ ys) = published (xs ++ r :: ys)
  /\ published (replicate k None ++ ys) = published ys.
Proof.
  rewrite !published_eq. split.
  - by rewrite (trace_app xs (replicate (S k) r ++ ys)),
       (trace_app xs (r :: ys)), trace_repeat.
  - destruct k as [|k]; [done|].
    rewrite trace_repeat, trace_cons. by rewrite decide_True.
Qed.

(** X14: [loop] carries its history in [present] only: running it over
    [xs ++ ys] is running it over [ys] from the state the run over [xs]
    leaves, that is with the messages of [xs] published and the last result
    of [xs] in [present]. *)
Theorem loop_resume (xs ys : list (option Card)) (log : list bridge.message) :
  bridge.loop (length (xs ++ ys)) (xs ++ ys) log
  = bridge.run (length ys)
      {| bridge.rfid := ys;
         bridge.client := log ++ published xs;
         bridge.present := List.last xs None |}.
Proof.
  unfold bridge.loop.
  rewrite !run_scripted, published_eq, trace_app, last_app_default.
  by rewrite map_app, app_assoc.
Qed.

Lemma trace_empty_iff (results : list (option Card)) :
  forall last, trace last results = [] <-> Forall (fun r => r = last) results.
Proof.
  induction results as [|r rest IH]; intros last; [done|].
  rewrite trace_cons, Forall_cons. destruct (decide (r = last)) as [->|Hne].
  - cbn [app]. rewrite IH. tauto.
  - split; [discriminate | tauto].
Qed.

Lemma last_all_equal {A} (l : list A) (x : A) :
  Forall (fun y => y = x) l -> List.last l x = x.
Proof.
  induction 1 as [|y l -> _ IH]; [done|]. by rewrite last_cons.
Qed.

Lemma trace_last (results : list (option Card)) :
  forall last d,
    trace last results <> [] ->
    List.last (trace last results) d
    = (List.last results last, event_of (List.last results last)).
Proof.
  induction results as [|r rest IH]; intros last d Hne; [done|].
  rewrite trace_cons in *. rewrite last_cons, last_app_default.
  destruct (decide (trace r rest = [])) as [He|Hn].
  - rewrite He in *. cbn [List.last].
    apply trace_empty_iff, last_all_equal in He. rewrite He.
    by destruct (decide (r = last)).
  - by apply IH.
Qed.

(** X15: what has been published tells the state of the reader as of the
    last result: nothing is published exactly when every result was [None];
    otherwise the last message is the presented message of the card of the
    last result, or the removed message when the last result is [None]. *)
Theorem published_reflects_state (results : list (option Card)) :
  (published results = [] <-> Forall (fun r => r = None) results)
  /\ (published results <> [] ->
      forall d,
        List.last (published results) d = event_of (List.last results None)).
Proof.
  rewrite published_eq. split.
  - rewrite <- trace_empty_iff. split; [|by intros ->].
    by destruct (trace None results).
  - intros Hne d.
    assert (Ht : trace None results <> []) by (by intros He; rewrite He in Hne).
    destruct (exists_last Ht) as (t' & e & He).
    pose proof (trace_last results None e Ht) as Hl.
    rewrite He, last_last in Hl. rewrite He, map_app. cbn [map].
    rewrite last_last, Hl. done.
Qed.

(** A card read twice and then gone: the last message is the removal. *)
Lemma published_reflects_state_witness :
  List.last (published [Some (4, [x01]); Some (4, [x01]); None])
    (card_presented (4, [x01]))
  = card_removed.
Proof.
  apply (proj2 (published_reflects_state [Some (4, [x01]); Some (4, [x01]); None])).
  vm_compute. discriminate.
Defined.

(** X16: for every kind of reader, [loop] only ever adds to what the
    client has published, and adds at most one message per iteration. *)
Theorem loop_log_grows (R : Type) (reader : bridge.Rfid R) (n : nat) :
  forall f : bridge.frame R,
    exists out,
      bridge.client (snd (bridge.run n f)) = bridge.client f ++ out
      /\ (length out <= n)%nat.
Proof.
  induction n as [|n IH]; intros f.
  - exists []. cbn. by rewrite app_nil_r.
  - rewrite run_step. unfold bridge.iteration.
    destruct (bridge.rfid_select (bridge.rfid f)) as [[response|e] r'].
    + rewrite transition_eq.
      match goal with
      | |- context [bridge.run n ?g] => destruct (IH g) as (out & Ho & Hl)
      end.
      cbn [bridge.client] in Ho. rewrite Ho, <- app_assoc.
      eexists. split; [reflexivity|].
      rewrite length_app. destruct (decide (response = bridge.present f));
        cbn [length]; lia.
    + exists []. cbn. rewrite app_nil_r. split; [done | lia].
Qed.

(** X17: the card type is part of what makes a card different but never
    of what is published: two cards with the same uid and different types
    read one after the other publish the same presented message twice; and
    every published message is the removed message or the presented message
    carrying the uid, alone, of one of the results. *)
Theorem published_uid_only :
  (forall (t1 t2 : Z) (uid : list byte),
     t1 <> t2 ->
     published [Some (t1, uid); Some (t2, uid)]
     = [bridge.publish bridge.PRESENTED_TOPIC (Some uid);
        bridge.publish bridge.PRESENTED_TOPIC (Some uid)])
  /\ (forall results m,
       In m (published results) ->
       m = bridge.publish bridge.REMOVED_TOPIC None
       \/ exists t uid,
           In (Some (t, uid)) results
           /\ m = bridge.publish bridge.PRESENTED_TOPIC (Some uid)).
Proof.
  split.
  - intros t1 t2 uid Hne. rewrite published_eq, !trace_cons. cbn [trace].
    rewrite !decide_False by congruence. reflexivity.
  - intros results m. rewrite published_eq. generalize (@None Card).
    induction results as [|r rest IH]; intros last Hin; [done|].
    rewrite trace_cons, map_app, in_app_iff in Hin. destruct Hin as [Hin|Hin].
    + destruct (decide (r = last)); [done|]. cbn in Hin.
      destruct Hin as [<-|[]]. destruct r as [[t uid]|]; [|by left].
      right. exists t, uid. split; [by left | done].
    + destruct (IH _ Hin) as [->|(t & uid & Hr & ->)]; [by left|].
      right. exists t, uid. split; [by right | done].
Qed.

(** Types 4 and 8 on the uid 01 02. *)
Lemma published_uid_only_witness :
  published [Some (4, [x01; x02]); Some (8, [x01; x02])]
  = [bridge.publish bridge.PRESENTED_TOPIC (Some [x01; x02]);
     bridge.publish bridge.PRESENTED_TOPIC (Some [x01; x02])].
Proof.
  apply (proj1 published_uid_only 4 8 [x01; x02]). discriminate.
Defined.

(** ** The entry point *)

Lemma loop_reader_raises (n : nat) (self : RFIDReader.t)
  (log : list bridge.message) :
  bridge.loop (S n) self log
  = (Some (AttributeError "COMMAND_SELECT"),
     {| bridge.rfid := self; bridge.client := log; bridge.present := None |}).
Proof.
  unfold bridge.loop. rewrite run_step. unfold bridge.iteration.
  cbn [bridge.rfid bridge.client bridge.present].
  unfold bridge.rfid_select, bridge.reader_rfid.
  by rewrite select_raises.
Qed.

(** X18: [main] reads [args.host], but the parser names its first argument
    [hostname]: for every command line that parses, [main] raises
    AttributeError before the client is asked to connect, before the reader
    is constructed and before any GPIO file is touched. *)
Theorem main_never_connects (os : bridge_main.Os) (n : nat)
  (hostname : string) (port : Z) (p : bridge_main.process) :
  bridge_main.parse_args hostname port !! "host"%string = None
  /\ bridge_main.parse_args hostname port !! "hostname"%string
     = Some (PyStr hostname)
  /\ bridge_main.main os n hostname port p = (Some (AttributeError "host"), p).
Proof.
  assert (H : bridge_main.parse_args hostname port !! "host"%string = None)
    by (vm_compute; reflexivity).
  split; [done|]. split; [vm_compute; reflexivity|].
  unfold bridge_main.main. by rewrite H.
Qed.

(** X19: from [client.connect] on, with whatever host and port values,
    [main] never publishes: once the connection is made it calls
    [loop_start], fails either in the construction of the reader or in the
    first [select()] of the loop, and leaves through the [finally] clause,
    so that the calls on the client are exactly connect, loop_start,
    loop_stop; when the connection fails only connect has been called. *)
Theorem serve_never_publishes (os : bridge_main.Os) (n : nat)
  (host port : PyVal) (p : bridge_main.process) :
  (bridge_main.connect_result os = Ok tt ->
     exists e w,
       bridge_main.serve os (S n) host port p
       = (Some e,
          {| bridge_main.broker :=
               bridge_main.broker p
               ++ [bridge_main.connect host port; bridge_main.loop_start;
                   bridge_main.loop_stop];
             bridge_main.outside := w |}))
  /\ (forall e,
       bridge_main.connect_result os = Raise e ->
       bridge_main.serve os (S n) host port p
       = (Some e,
          {| bridge_main.broker :=
               bridge_main.broker p ++ [bridge_main.connect host port];
             bridge_main.outside := bridge_main.outside p |})).
Proof.
  unfold bridge_main.serve. split.
  - intros ->.
    destruct (RFIDReader.init _ _ _ _ _ _) as [[rfid|e] w].
    + rewrite loop_reader_raises. cbn [bridge.client map app].
      exists (AttributeError "COMMAND_SELECT"), w.
      by rewrite <- !app_assoc.
    + exists e, w. by rewrite <- !app_assoc.
  - intros e ->. reflexivity.
Qed.

(** A system on which the broker accepts the connection and the I2C device
    answers the ioctl with 0. *)
Lemma serve_never_publishes_witness :
  exists e w,
    bridge_main.serve
      {| bridge_main.reader_env :=
           system {| written := []; pending := [] |}
             (RFIDReader.fcntl_ioctl 0 0) (fun _ => true);
         bridge_main.connect_result := Ok tt |}
      1 (PyStr "localhost") (PyInt 1883)
      {| bridge_main.broker := [];
         bridge_main.outside :=
           {| RFIDReader.sysfs := []; RFIDReader.stdout := [] |} |}
    = (Some e,
       {| bridge_main.broker :=
            [] ++ [bridge_main.connect (PyStr "localhost") (PyInt 1883);
                   bridge_main.loop_start; bridge_main.loop_stop];
          bridge_main.outside := w |}).
Proof.
  exact (proj1 (serve_never_publishes
                  {| bridge_main.reader_env :=
                       system {| written := []; pending := [] |}
                         (RFIDReader.fcntl_ioctl 0 0) (fun _ => true);
                     bridge_main.connect_result := Ok tt |}
                  0 (PyStr "localhost") (PyInt 1883)
                  {| bridge_main.broker := [];
                     bridge_main.outside :=
                       {| RFIDReader.sysfs := []; RFIDReader.stdout := [] |} |})
           eq_refl).
Defined.
